(** * Posts viewer: pagination and removal state logic of [src/App.jsx]

    A shallow embedding of the React state held by [PostsProvider]
    (posts, loading, currentPage), of its mutations ([setPosts],
    [setCurrentPage], [deletePost], the completion of [fetchPosts]) and of
    the values derived at render time by [Pagination] and [PostsGrid].

    Numbers.  The JavaScript numbers that occur are array lengths, page
    numbers and the quotient [length / 6].  Integers are embedded as [Z],
    the quotient as an exact rational [Q]; [Math.ceil] goes from [Q] back
    to [Z].  (Array lengths are below 2^32, so the double-precision
    quotient has the same ceiling as the exact one.)

    State.  Every state update is a function [State -> State]; React
    re-renders after each event, so the closures of [Pagination] always
    see the posts of the state they are applied to. *)

From Stdlib Require Import ZArith List Bool String Lia.
From Stdlib Require Import QArith Qround.
From Stdlib Require Import DecimalString DecimalPos DecimalZ.
Import ListNotations.

Local Open Scope Z_scope.

(** ** The fragment of JavaScript the component uses *)

Module JS.

(** [Math.max], [Math.min] on integers. *)
Definition Math_max (a b : Z) : Z := Z.max a b.
Definition Math_min (a b : Z) : Z := Z.min a b.

(** [a / b] on numbers: the exact quotient. *)
Definition div (a b : Z) : Q := (inject_Z a / inject_Z b)%Q.

(** [Math.ceil]. *)
Definition Math_ceil (x : Q) : Z := Qceiling x.

(** [arr.length]. *)
Definition length {A : Type} (arr : list A) : Z := Z.of_nat (List.length arr).

(** [arr.slice(start, end)] (ECMAScript, Array.prototype.slice): a
    negative bound counts from the end, both bounds are clamped to
    [0 .. length], and an empty range gives the empty array. *)
Definition slice {A : Type} (arr : list A) (start end_ : Z) : list A :=
  let len := length arr in
  let k := if start <? 0 then Z.max (len + start) 0 else Z.min start len in
  let final := if end_ <? 0 then Z.max (len + end_) 0 else Z.min end_ len in
  let count := Z.max (final - k) 0 in
  firstn (Z.to_nat count) (skipn (Z.to_nat k) arr).

(** The string a template literal inserts for an integer number. *)
Definition Number_toString (n : Z) : string :=
  NilZero.string_of_int (Z.to_int n).

End JS.

(** ** Data model *)

(** A post identifier as the JSON payload may carry it: a number or a
    string.  [===] never identifies a number with a string. *)
Inductive PostId : Type :=
| IdNum (n : Z)
| IdStr (s : string).

Definition strict_eq (a b : PostId) : bool :=
  match a, b with
  | IdNum x, IdNum y => Z.eqb x y
  | IdStr x, IdStr y => String.eqb x y
  | _, _ => false
  end.

(** [a !== b] *)
Definition strict_neq (a b : PostId) : bool := negb (strict_eq a b).

(** What the endpoint returns for one post (the fields the app reads). *)
Record RawPost : Type := mkRawPost {
  raw_id : PostId;
  raw_title : string;
  raw_body : string
}.

(** A post of the store: the fetched post spread, plus [img]. *)
Record Post : Type := mkPost {
  id : PostId;
  title : string;
  body : string;
  img : string
}.

(** The three [useState] cells of [PostsProvider]. *)
Record State : Type := mkState {
  posts : list Post;
  loading : bool;
  currentPage : Z
}.

(** [useState([])], [useState(true)], [useState(1)]. *)
Definition initialState : State :=
  {| posts := []; loading := true; currentPage := 1 |}.

(** ** State setters *)

(** [setPosts(prev => f(prev))] *)
Definition setPosts (f : list Post -> list Post) (s : State) : State :=
  {| posts := f (posts s); loading := loading s; currentPage := currentPage s |}.

(** [setLoading(b)] *)
Definition setLoading (b : bool) (s : State) : State :=
  {| posts := posts s; loading := b; currentPage := currentPage s |}.

(** [setCurrentPage(cp => f(cp))] *)
Definition setCurrentPage (f : Z -> Z) (s : State) : State :=
  {| posts := posts s; loading := loading s; currentPage := f (currentPage s) |}.

(** ** Initial load: the effect of [fetchPosts] once both promises settle *)

Definition PostId_toString (i : PostId) : string :=
  match i with
  | IdNum n => JS.Number_toString n
  | IdStr s => s
  end.

(** [post => ({ ...post, img: `https://picsum.photos/seed/${post.id}/400/250` })] *)
Definition withImage (post : RawPost) : Post :=
  {| id := raw_id post;
     title := raw_title post;
     body := raw_body post;
     img := ("https://picsum.photos/seed/" ++ PostId_toString (raw_id post)
             ++ "/400/250")%string |}.

(** Outcome of [await Promise.all([fetchPromise, delay])]: the parsed
    array, or a rejection (network error, bad JSON, [data.map] not
    callable), which lands in the [catch] branch. *)
Inductive FetchOutcome : Type :=
| Fetched (data : list RawPost)
| Rejected.

(** The body of [fetchPosts] after the [await].  [mounted] is the flag
    cleared by the effect's cleanup: when it is false nothing is set. *)
Definition fetchPosts (mounted : bool) (o : FetchOutcome) (s : State) : State :=
  if mounted then
    match o with
    | Fetched data =>
        let withImages := map withImage data in
        setLoading false (setPosts (fun _ => withImages) s)
    | Rejected =>
        setLoading false (setPosts (fun _ => []) s)
    end
  else s.

(** ** [deletePost] *)

Definition deletePost (i : PostId) (s : State) : State :=
  let next := filter (fun p => strict_neq (id p) i) (posts s) in
  let totalPages := JS.Math_max 1 (JS.Math_ceil (JS.div (JS.length next) 6)) in
  setCurrentPage (fun cp => JS.Math_min cp totalPages)
    (setPosts (fun _ => next) s).

(** ** [Pagination] *)

Module Pagination.

Definition totalPages (s : State) : Z :=
  JS.Math_max 1 (JS.Math_ceil (JS.div (JS.length (posts s)) 6)).

(** [for (let i = 1; i <= totalPages; i++) pages.push(i)] *)
Definition pages (s : State) : list Z :=
  map (fun k => Z.of_nat k + 1) (seq 0 (Z.to_nat (totalPages s))).

Definition goPrev (s : State) : State :=
  setCurrentPage (fun p => JS.Math_max 1 (p - 1)) s.

Definition goNext (s : State) : State :=
  let totalPages := totalPages s in
  setCurrentPage (fun p => JS.Math_min totalPages (p + 1)) s.

(** The page button's handler, [() => setCurrentPage(p)]; the store's
    page-selection operation. *)
Definition goToPage (p : Z) (s : State) : State :=
  setCurrentPage (fun _ => p) s.

End Pagination.

(** ** [PostsGrid] *)

Module PostsGrid.

Definition perPage : Z := 6.

Definition totalPages (s : State) : Z :=
  JS.Math_max 1 (JS.Math_ceil (JS.div (JS.length (posts s)) perPage)).

(** The page actually shown (the effective page). *)
Definition page (s : State) : Z :=
  JS.Math_min (currentPage s) (totalPages s).

Definition start (s : State) : Z := (page s - 1) * perPage.

Definition slice (s : State) : list Post :=
  JS.slice (posts s) (start s) (start s + perPage).

End PostsGrid.

(** ** The user's actions on a loaded store *)

Inductive Action : Type :=
| DeletePost (i : PostId)
| SelectPage (p : Z)
| Prev
| Next.

Definition step (a : Action) (s : State) : State :=
  match a with
  | DeletePost i => deletePost i s
  | SelectPage p => Pagination.goToPage p s
  | Prev => Pagination.goPrev s
  | Next => Pagination.goNext s
  end.

Definition isDelete (a : Action) : bool :=
  match a with DeletePost _ => true | _ => false end.

(** ** The specification's vocabulary *)

Module Spec.

Definition pageSize : Z := 6.

(** Integer ceiling of [n / d] for a positive [d]. *)
Definition ceil_div (n d : Z) : Z := (n + d - 1) / d.

(** [totalPages = max(1, ceil(len(Collection) / pageSize))] *)
Definition totalPages (len : Z) : Z := Z.max 1 (ceil_div len pageSize).

(** Constrain [x] into [lo .. hi]. *)
Definition clamp (lo hi x : Z) : Z := Z.max lo (Z.min hi x).

(** The page-cursor invariant. *)
Definition cursor_invariant (s : State) : Prop :=
  1 <= currentPage s <= totalPages (JS.length (posts s)).

(** [C[lo : hi]] for [0 <= lo <= hi]: the items at positions
    [lo, lo+1, ..., hi-1] that exist. *)
Definition subseq {A : Type} (C : list A) (lo hi : nat) : list A :=
  firstn (hi - lo) (skipn lo C).

(** [C] with the item of identifier [i] removed (the first one, ids
    being unique in a Collection). *)
Fixpoint remove_item (i : PostId) (C : list Post) : list Post :=
  match C with
  | [] => []
  | p :: rest => if strict_eq (id p) i then rest else p :: remove_item i rest
  end.

(** No two items share an identifier. *)
Definition unique_ids (C : list Post) : Prop := NoDup (map id C).

(** No item of [C] has identifier [i]. *)
Definition absent (i : PostId) (C : list Post) : Prop :=
  forall p, In p C -> id p <> i.

(** [a] occurs at an earlier position than [b] in [C]. *)
Fixpoint before (a b : Post) (C : list Post) : Prop :=
  match C with
  | [] => False
  | x :: rest => (x = a /\ In b rest) \/ before a b rest
  end.

(** The slice length as the specification words it: [pageSize] on
    every page but the last; on the last page [len mod pageSize], or
    [pageSize] if [len] is evenly divisible. *)
Definition slice_length (len page totalPages : Z) : Z :=
  if page <? totalPages then pageSize
  else if len mod pageSize =? 0 then pageSize
  else len mod pageSize.

(** The same, with the empty Collection set apart. *)
Definition slice_length_nonempty_aware (len page totalPages : Z) : Z :=
  if page <? totalPages then pageSize
  else if len =? 0 then 0
  else if len mod pageSize =? 0 then pageSize
  else len mod pageSize.

End Spec.

(** ** Sample data *)

Definition samplePost (n : Z) : Post :=
  withImage {| raw_id := IdNum n; raw_title := "title"; raw_body := "body" |}.

(** Posts with ids [1 .. n]. *)
Definition samplePosts (n : nat) : list Post :=
  map (fun k => samplePost (Z.of_nat k + 1)) (seq 0 n).

Definition loaded (C : list Post) (cp : Z) : State :=
  {| posts := C; loading := false; currentPage := cp |}.

(** The sequence the fetch collaborator hands to the store: the fetched
    posts with their image reference, or the empty sequence on failure. *)
Definition suppliedItems (o : FetchOutcome) : list Post :=
  match o with
  | Fetched data => map withImage data
  | Rejected => []
  end.

(** ** The loop that fills [pages] in [Pagination] *)

(** [for (let i = 1; i <= totalPages; i++) pages.push(i)], one iteration
    per unit of fuel; [None] when the fuel runs out before the test
    [i <= totalPages] fails. *)
Fixpoint pages_loop (fuel : nat) (i totalPages : Z) (pages : list Z)
  : option (list Z) :=
  match fuel with
  | O => None
  | S fuel' =>
      if i <=? totalPages
      then pages_loop fuel' (i + 1) totalPages (pages ++ [i])
      else Some pages
  end.

(** ** What the components render *)

(** A [<button>]: the action its [onClick] starts and its [disabled]
    attribute (a disabled button fires no click). *)
Record Button : Type := mkButton {
  onClick : Action;
  disabled : bool
}.

(** The card of App.jsx: image source, title, body and the cross. *)
Record CardView : Type := mkCardView {
  card_src : string;
  card_title : string;
  card_body : string;
  card_cross : Button
}.

(** A numbered page button: its label, whether it carries the active
    style ([p === currentPage]) and its click. *)
Record PageButton : Type := mkPageButton {
  pb_label : Z;
  pb_active : bool;
  pb_button : Button
}.

Record PaginationView : Type := mkPaginationView {
  prevBtn : Button;
  pageBtns : list PageButton;
  nextBtn : Button
}.

(** The grid: the keyed cards, then the pagination bar. *)
Record GridView : Type := mkGridView {
  cards : list (PostId * CardView);
  pagination : PaginationView
}.

Inductive Content : Type :=
| LoadingMessage
| Grid (g : GridView).

Record ShellView : Type := mkShellView {
  totalPostsText : Z;
  content : Content
}.

Module Render.

(** [CrossIcon({ onClick })] *)
Definition CrossIcon (onClick : Action) : Button :=
  {| onClick := onClick; disabled := false |}.

(** [Card({ post, onDelete })] of App.jsx. *)
Definition Card (post : Post) (onDelete : PostId -> Action) : CardView :=
  {| card_src := img post;
     card_title := title post;
     card_body := body post;
     card_cross := CrossIcon (onDelete (id post)) |}.

(** [Pagination()] *)
Definition Pagination (s : State) : PaginationView :=
  let totalPages := Pagination.totalPages s in
  {| prevBtn := {| onClick := Prev; disabled := currentPage s =? 1 |};
     pageBtns :=
       map (fun p => {| pb_label := p;
                        pb_active := p =? currentPage s;
                        pb_button := {| onClick := SelectPage p;
                                        disabled := false |} |})
         (Pagination.pages s);
     nextBtn := {| onClick := Next;
                   disabled := currentPage s =? totalPages |} |}.

(** [PostsGrid()]: [slice.map(post => <Card key={post.id} ... onDelete={deletePost} />)]
    followed by [<Pagination />]. *)
Definition PostsGrid (s : State) : GridView :=
  {| cards := map (fun post => (id post, Card post DeletePost))
                (PostsGrid.slice s);
     pagination := Pagination s |}.

(** [MainShell()] *)
Definition MainShell (s : State) : ShellView :=
  {| totalPostsText := JS.length (posts s);
     content := if loading s then LoadingMessage else Grid (PostsGrid s) |}.

End Render.

(** The card of Card.jsx: its own image address, a delete button. *)
Module CardFile.

Definition src (post : Post) : string :=
  ("https://picsum.photos/id/" ++ PostId_toString (id post) ++ "/200/150")%string.

Definition Card (post : Post) (onDelete : PostId -> Action) : CardView :=
  {| card_src := src post;
     card_title := title post;
     card_body := body post;
     card_cross := {| onClick := onDelete (id post); disabled := false |} |}.

End CardFile.

(** ** Clicks the rendered page offers *)

Definition buttons (g : GridView) : list Button :=
  map (fun kc => card_cross (snd kc)) (cards g)
  ++ prevBtn (pagination g)
  :: map pb_button (pageBtns (pagination g))
  ++ [nextBtn (pagination g)].

(** The actions a user can start from what is on screen. *)
Definition clickable (v : ShellView) : list Action :=
  match content v with
  | LoadingMessage => []
  | Grid g => map onClick (filter (fun b => negb (disabled b)) (buttons g))
  end.

(** States the user can reach from [s0] by clicking what is offered. *)
Inductive ui_reachable (s0 : State) : State -> Prop :=
| ui_start : ui_reachable s0 s0
| ui_click (s : State) (a : Action) :
    ui_reachable s0 s ->
    In a (clickable (Render.MainShell s)) ->
    ui_reachable s0 (step a s).

(** The pages in order, as the grid shows them one after the other. *)
Definition allPages (s : State) : list (list Post) :=
  map (fun p => PostsGrid.slice (Pagination.goToPage p s)) (Pagination.pages s).

(** * Properties *)

(** ** Arithmetic of the page count *)

Section Ceiling.

Lemma Math_ceil_div6 (n : Z) :
  JS.Math_ceil (JS.div n 6) = Spec.ceil_div n 6.
Proof.
  unfold JS.Math_ceil, JS.div, Spec.ceil_div, Qceiling, Qfloor; simpl.
  rewrite Z.mul_1_r.
  pose proof (Z.div_mod (- n) 6 ltac:(lia)) as E1.
  pose proof (Z.mod_pos_bound (- n) 6 ltac:(lia)) as B1.
  pose proof (Z.div_mod (n + 6 - 1) 6 ltac:(lia)) as E2.
  pose proof (Z.mod_pos_bound (n + 6 - 1) 6 ltac:(lia)) as B2.
  lia.
Qed.

(** [ceil_div n 6] is the least integer [k] with [n <= 6 * k]. *)
Lemma ceil_div6_iff (n k : Z) :
  Spec.ceil_div n 6 = k <-> 6 * (k - 1) < n <= 6 * k.
Proof.
  unfold Spec.ceil_div.
  pose proof (Z.div_mod (n + 6 - 1) 6 ltac:(lia)) as E.
  pose proof (Z.mod_pos_bound (n + 6 - 1) 6 ltac:(lia)) as B.
  split; intros H; lia.
Qed.

Lemma ceil_div6_bounds (n : Z) :
  6 * (Spec.ceil_div n 6 - 1) < n <= 6 * Spec.ceil_div n 6.
Proof. now apply ceil_div6_iff. Qed.

Lemma length_nonneg {A : Type} (l : list A) : 0 <= JS.length l.
Proof. unfold JS.length; lia. Qed.

Lemma Pagination_totalPages_eq (s : State) :
  Pagination.totalPages s = Spec.totalPages (JS.length (posts s)).
Proof.
  unfold Pagination.totalPages, Spec.totalPages, Spec.pageSize, JS.Math_max.
  now rewrite Math_ceil_div6.
Qed.

Lemma PostsGrid_totalPages_eq (s : State) :
  PostsGrid.totalPages s = Spec.totalPages (JS.length (posts s)).
Proof.
  unfold PostsGrid.totalPages, PostsGrid.perPage, Spec.totalPages,
    Spec.pageSize, JS.Math_max.
  now rewrite Math_ceil_div6.
Qed.

Lemma totalPages_pos (len : Z) : 1 <= Spec.totalPages len.
Proof. unfold Spec.totalPages; lia. Qed.

(** A shorter Collection never has more pages. *)
Lemma totalPages_mono (a b : Z) :
  a <= b -> Spec.totalPages a <= Spec.totalPages b.
Proof.
  intros Hab. unfold Spec.totalPages, Spec.pageSize.
  pose proof (ceil_div6_bounds a). pose proof (ceil_div6_bounds b). lia.
Qed.

End Ceiling.

(** ** Reading the state after [deletePost] *)

Section DeletePost.

Variable i : PostId.
Variable s : State.

Lemma deletePost_posts :
  posts (deletePost i s) = filter (fun p => strict_neq (id p) i) (posts s).
Proof. reflexivity. Qed.

Lemma deletePost_loading : loading (deletePost i s) = loading s.
Proof. reflexivity. Qed.

Lemma deletePost_currentPage :
  currentPage (deletePost i s)
  = Z.min (currentPage s) (Spec.totalPages (JS.length (posts (deletePost i s)))).
Proof.
  unfold deletePost, setCurrentPage, setPosts, JS.Math_min, JS.Math_max,
    Spec.totalPages, Spec.pageSize; simpl.
  now rewrite Math_ceil_div6.
Qed.

End DeletePost.

Lemma strict_eq_iff (a b : PostId) : strict_eq a b = true <-> a = b.
Proof.
  destruct a as [x|x], b as [y|y]; simpl.
  - rewrite Z.eqb_eq. split; congruence.
  - split; discriminate.
  - split; discriminate.
  - rewrite String.eqb_eq. split; congruence.
Qed.

Lemma strict_neq_iff (a b : PostId) : strict_neq a b = true <-> a <> b.
Proof.
  unfold strict_neq. rewrite negb_true_iff, <- not_true_iff_false.
  now rewrite strict_eq_iff.
Qed.

Lemma State_eq (a b : State) :
  posts a = posts b -> loading a = loading b -> currentPage a = currentPage b ->
  a = b.
Proof. destruct a, b; simpl; congruence. Qed.

(** ** Filtering by identifier *)

Section Filter.

Variable i : PostId.

Let keep : Post -> bool := fun p => strict_neq (id p) i.

Lemma filter_absent (C : list Post) :
  Spec.absent i C -> filter keep C = C.
Proof.
  induction C as [|p C IH]; intros Habs; simpl; [reflexivity|].
  assert (Hp : keep p = true)
    by (apply strict_neq_iff, Habs; now left).
  rewrite Hp, IH; [reflexivity|].
  intros q Hq. apply Habs. now right.
Qed.

Lemma filter_is_absent (C : list Post) : Spec.absent i (filter keep C).
Proof.
  intros p Hp. apply filter_In in Hp. now apply strict_neq_iff.
Qed.

Lemma In_map_id_filter (C : list Post) (j : PostId) :
  In j (map id (filter keep C)) -> In j (map id C).
Proof.
  rewrite !in_map_iff. intros [p [Hj Hp]].
  exists p. split; [assumption|]. now apply filter_In in Hp.
Qed.

Lemma unique_ids_filter (C : list Post) :
  Spec.unique_ids C -> Spec.unique_ids (filter keep C).
Proof.
  unfold Spec.unique_ids.
  induction C as [|p C IH]; simpl; intros Hnd; [assumption|].
  apply NoDup_cons_iff in Hnd as [Hnotin Hnd].
  destruct (keep p); simpl; [|now apply IH].
  apply NoDup_cons_iff; split; [|now apply IH].
  intros Hin. apply Hnotin. now apply In_map_id_filter.
Qed.

(** With unique ids, filtering removes the one item of that id. *)
Lemma filter_remove_item (C : list Post) :
  Spec.unique_ids C -> filter keep C = Spec.remove_item i C.
Proof.
  unfold Spec.unique_ids.
  induction C as [|p C IH]; simpl; intros Hnd; [reflexivity|].
  apply NoDup_cons_iff in Hnd as [Hnotin Hnd].
  unfold keep at 1, strict_neq.
  destruct (strict_eq (id p) i) eqn:E; simpl.
  - apply strict_eq_iff in E. apply filter_absent.
    intros q Hq Hid. apply Hnotin. rewrite E, <- Hid. now apply in_map.
  - f_equal. now apply IH.
Qed.

Lemma before_In (a b : Post) (C : list Post) :
  Spec.before a b C -> In a C /\ In b C.
Proof.
  induction C as [|x C IH]; simpl; [tauto|].
  intros [[Hx Hb]|H]; [subst; tauto|]. apply IH in H. tauto.
Qed.

Lemma before_filter (a b : Post) (C : list Post) :
  Spec.before a b (filter keep C)
  <-> Spec.before a b C /\ id a <> i /\ id b <> i.
Proof.
  induction C as [|x C IH]; simpl; [tauto|].
  destruct (keep x) eqn:E; simpl.
  - rewrite IH, filter_In. unfold keep in *. rewrite strict_neq_iff.
    apply strict_neq_iff in E.
    split.
    + intros [[Hx [Hb Hbi]]|[H [Ha Hb]]]; subst; tauto.
    + intros [[[Hx Hb]|H] [Ha Hbi]]; subst; tauto.
  - rewrite IH. unfold keep in E.
    apply negb_false_iff, strict_eq_iff in E.
    split.
    + tauto.
    + intros [[[Hx Hb]|H] [Ha Hbi]]; subst; tauto.
Qed.

End Filter.

(** ** The visible slice *)

Section Slice.

Context {A : Type}.

(** Inside the array, [slice] is the plain sub-sequence. *)
Lemma slice_in_range (arr : list A) (lo : Z) :
  0 <= lo <= JS.length arr ->
  JS.slice arr lo (lo + 6)
  = Spec.subseq arr (Z.to_nat lo) (Z.to_nat (lo + 6)).
Proof.
  intros Hlo. unfold JS.slice, Spec.subseq.
  assert (Hlen : JS.length arr - lo
                 = Z.of_nat (List.length (skipn (Z.to_nat lo) arr)))
    by (rewrite length_skipn; unfold JS.length in *; lia).
  destruct (Z.ltb_spec lo 0) as [?|_]; [lia|].
  destruct (Z.ltb_spec (lo + 6) 0) as [?|_]; [lia|].
  replace (Z.min lo (JS.length arr)) with lo by lia.
  replace (Z.to_nat (lo + 6) - Z.to_nat lo)%nat with 6%nat by lia.
  destruct (Z.le_gt_cases (lo + 6) (JS.length arr)) as [Hfull|Hshort].
  - f_equal. lia.
  - rewrite (firstn_all2 (n := 6)) by lia.
    apply firstn_all2. lia.
Qed.

Lemma subseq_length (arr : list A) (lo : Z) :
  0 <= lo <= JS.length arr ->
  JS.length (Spec.subseq arr (Z.to_nat lo) (Z.to_nat (lo + 6)))
  = Z.min 6 (JS.length arr - lo).
Proof.
  intros Hlo. unfold Spec.subseq, JS.length in *.
  rewrite length_firstn, length_skipn. lia.
Qed.

End Slice.

(** The start of an in-range page lies inside the Collection. *)
Lemma start_in_range (len p : Z) :
  0 <= len -> 1 <= p <= Spec.totalPages len ->
  0 <= (p - 1) * 6 <= len.
Proof.
  unfold Spec.totalPages, Spec.pageSize. intros Hlen Hp.
  pose proof (ceil_div6_bounds len). lia.
Qed.

Lemma page_in_range (s : State) :
  Spec.cursor_invariant s -> PostsGrid.page s = currentPage s.
Proof.
  unfold Spec.cursor_invariant, PostsGrid.page, JS.Math_min.
  rewrite PostsGrid_totalPages_eq. lia.
Qed.

(** ** [deletePost] and the cursor invariant *)

Lemma deletePost_keeps_invariant (i : PostId) (s : State) :
  Spec.cursor_invariant s -> Spec.cursor_invariant (deletePost i s).
Proof.
  unfold Spec.cursor_invariant. intros Hinv.
  rewrite deletePost_currentPage.
  pose proof (totalPages_pos (JS.length (posts (deletePost i s)))).
  lia.
Qed.

Lemma deletePost_absent_same (i : PostId) (s : State) :
  Spec.cursor_invariant s -> Spec.absent i (posts s) -> deletePost i s = s.
Proof.
  intros Hinv Habs.
  assert (Hposts : posts (deletePost i s) = posts s)
    by (rewrite deletePost_posts; now apply filter_absent).
  apply State_eq; [assumption | reflexivity |].
  rewrite deletePost_currentPage, Hposts.
  unfold Spec.cursor_invariant in Hinv. lia.
Qed.

(** * The claims *)

(** C1 (as amended).  For every integer [n >= 1], selecting page [n]
    stores [n] as the cursor, leaves the Collection alone, and the page
    the grid then shows is [n] clamped into [1 .. totalPages]: a request
    beyond the last page is clamped at read time, never rejected. *)
Theorem goToPage_effective_page (s : State) (n : Z) :
  1 <= n ->
  let s' := Pagination.goToPage n s in
  posts s' = posts s
  /\ currentPage s' = n
  /\ PostsGrid.page s' = Spec.clamp 1 (PostsGrid.totalPages s') n
  /\ 1 <= PostsGrid.page s' <= PostsGrid.totalPages s'.
Proof.
  intros Hn s'. subst s'.
  unfold PostsGrid.page, Spec.clamp, JS.Math_min.
  rewrite PostsGrid_totalPages_eq. simpl.
  pose proof (totalPages_pos (JS.length (posts s))).
  repeat split; lia.
Qed.

Lemma goToPage_effective_page_witness :
  PostsGrid.page (Pagination.goToPage 7 (loaded (samplePosts 18) 1)) = 3.
Proof.
  destruct (goToPage_effective_page (loaded (samplePosts 18) 1) 7
              ltac:(lia)) as [_ [_ [H _]]].
  rewrite H. reflexivity.
Defined.

(** C1, the claim as worded, fails below 1: page 0 requested on the empty
    Collection is shown as page 0, outside [1 .. totalPages]. *)
Lemma goToPage_zero_not_clamped :
  PostsGrid.page (Pagination.goToPage 0 (loaded [] 1)) = 0
  /\ PostsGrid.totalPages (Pagination.goToPage 0 (loaded [] 1)) = 1
  /\ ~ (1 <= PostsGrid.page (Pagination.goToPage 0 (loaded [] 1))
          <= PostsGrid.totalPages (Pagination.goToPage 0 (loaded [] 1))).
Proof.
  assert (Hp : PostsGrid.page (Pagination.goToPage 0 (loaded [] 1)) = 0)
    by reflexivity.
  repeat split; try reflexivity.
  rewrite Hp. lia.
Qed.

(** C2.  From a state whose cursor lies in [1 .. max(1, ceil(len C / 6))],
    [deletePost] leaves a cursor in [1 .. max(1, ceil(len C' / 6))], where
    [C'] is the Collection after the call; the new cursor is the old one
    clamped to the new page count, and when ids are unique [C'] is [C]
    with the item of that id removed. *)
Theorem deletePost_cursor_invariant (i : PostId) (s : State) :
  Spec.cursor_invariant s ->
  Spec.cursor_invariant (deletePost i s)
  /\ currentPage (deletePost i s)
     = Z.min (currentPage s)
         (Spec.totalPages (JS.length (posts (deletePost i s))))
  /\ (Spec.unique_ids (posts s) ->
      posts (deletePost i s) = Spec.remove_item i (posts s)).
Proof.
  intros Hinv. split; [now apply deletePost_keeps_invariant|].
  split; [apply deletePost_currentPage|].
  intros Hu. rewrite deletePost_posts. now apply filter_remove_item.
Qed.

Lemma deletePost_cursor_invariant_witness :
  Spec.cursor_invariant (deletePost (IdNum 13) (loaded (samplePosts 13) 3))
  /\ currentPage (deletePost (IdNum 13) (loaded (samplePosts 13) 3)) = 2.
Proof.
  assert (Hinv : Spec.cursor_invariant (loaded (samplePosts 13) 3))
    by (vm_compute; split; discriminate).
  destruct (deletePost_cursor_invariant (IdNum 13) _ Hinv) as [H1 [H2 _]].
  split; [exact H1 | rewrite H2; reflexivity].
Defined.

(** C10.  [deletePost] never increases the cursor: from a cursor [>= 1]
    the cursor after the call is at most the cursor before. *)
Theorem deletePost_cursor_le (i : PostId) (s : State) :
  1 <= currentPage s ->
  currentPage (deletePost i s) <= currentPage s.
Proof.
  intros _. rewrite deletePost_currentPage. lia.
Qed.

Lemma deletePost_cursor_le_witness :
  currentPage (deletePost (IdNum 2) (loaded (samplePosts 7) 2)) <= 2.
Proof.
  apply (deletePost_cursor_le (IdNum 2) (loaded (samplePosts 7) 2)).
  simpl. lia.
Defined.

(** C5.  In a state satisfying the cursor invariant, [deletePost] of an
    id that no item carries returns the state unchanged: same Collection,
    same cursor (and same loading flag). *)
Theorem deletePost_absent_noop (i : PostId) (s : State) :
  Spec.cursor_invariant s ->
  Spec.absent i (posts s) ->
  deletePost i s = s.
Proof.
  intros Hinv Habs. now apply deletePost_absent_same.
Qed.

Lemma deletePost_absent_noop_witness :
  deletePost (IdStr "7") (loaded (samplePosts 7) 2) = loaded (samplePosts 7) 2.
Proof.
  apply deletePost_absent_noop.
  - vm_compute; split; discriminate.
  - intros p Hp. simpl in Hp.
    repeat (destruct Hp as [Hp|Hp]; [subst p; discriminate|]).
    destruct Hp.
Defined.

(** C6.  [deletePost] is idempotent: in a state satisfying the cursor
    invariant, a second call with the same id changes nothing, so two
    calls leave the same Collection and cursor as one. *)
Theorem deletePost_idempotent (i : PostId) (s : State) :
  Spec.cursor_invariant s ->
  deletePost i (deletePost i s) = deletePost i s.
Proof.
  intros Hinv.
  apply deletePost_absent_same.
  - now apply deletePost_keeps_invariant.
  - rewrite deletePost_posts. apply filter_is_absent.
Qed.

Lemma deletePost_idempotent_witness :
  deletePost (IdNum 13) (deletePost (IdNum 13) (loaded (samplePosts 13) 3))
  = deletePost (IdNum 13) (loaded (samplePosts 13) 3).
Proof.
  apply deletePost_idempotent.
  vm_compute; split; discriminate.
Defined.

(** C7.  With the cursor in [1 .. totalPages]: [goNext] sets the cursor
    to its successor clamped into [1 .. totalPages], moving one page
    forward below the last page and changing nothing on the last page;
    [goPrev] sets it to its predecessor clamped likewise, moving one page
    back above page 1 and changing nothing on page 1.  Both are total
    functions on states and keep the cursor in range. *)
Theorem goNext_goPrev_clamped (s : State) :
  1 <= currentPage s <= Pagination.totalPages s ->
  let tp := Pagination.totalPages s in
  (currentPage (Pagination.goNext s) = Spec.clamp 1 tp (currentPage s + 1)
   /\ (currentPage s < tp ->
       currentPage (Pagination.goNext s) = currentPage s + 1)
   /\ (currentPage s = tp -> Pagination.goNext s = s)
   /\ posts (Pagination.goNext s) = posts s
   /\ 1 <= currentPage (Pagination.goNext s) <= tp)
  /\
  (currentPage (Pagination.goPrev s) = Spec.clamp 1 tp (currentPage s - 1)
   /\ (1 < currentPage s ->
       currentPage (Pagination.goPrev s) = currentPage s - 1)
   /\ (currentPage s = 1 -> Pagination.goPrev s = s)
   /\ posts (Pagination.goPrev s) = posts s
   /\ 1 <= currentPage (Pagination.goPrev s) <= tp).
Proof.
  intros Hin tp. subst tp.
  unfold Pagination.goNext, Pagination.goPrev, setCurrentPage, Spec.clamp,
    JS.Math_min, JS.Math_max; simpl.
  set (tp := Pagination.totalPages s) in *.
  split; repeat split; try lia.
  - intros Hlast. apply State_eq; simpl; try reflexivity. lia.
  - intros Hfirst. apply State_eq; simpl; try reflexivity. lia.
Qed.

Lemma goNext_goPrev_clamped_witness :
  Pagination.goNext (loaded (samplePosts 18) 3) = loaded (samplePosts 18) 3
  /\ Pagination.goPrev (loaded (samplePosts 18) 1) = loaded (samplePosts 18) 1
  /\ currentPage (Pagination.goNext (loaded (samplePosts 18) 2)) = 3.
Proof.
  split; [|split].
  - apply (goNext_goPrev_clamped (loaded (samplePosts 18) 3)).
    + vm_compute; split; discriminate.
    + reflexivity.
  - apply (goNext_goPrev_clamped (loaded (samplePosts 18) 1)).
    + vm_compute; split; discriminate.
    + reflexivity.
  - apply (goNext_goPrev_clamped (loaded (samplePosts 18) 2)).
    + vm_compute; split; discriminate.
    + vm_compute; reflexivity.
Defined.

(** C4.  The page count computed by [Pagination] and by [PostsGrid] is
    [max(1, ceil(len / 6))], where [ceil(len / 6)] is the least integer
    [k] with [len <= 6 * k]; it is 1 for the empty Collection and 3 for a
    Collection of 18 items. *)
Theorem totalPages_max_ceil (s : State) :
  let len := JS.length (posts s) in
  (forall k, 6 * (k - 1) < len <= 6 * k ->
             Pagination.totalPages s = Z.max 1 k
             /\ PostsGrid.totalPages s = Z.max 1 k)
  /\ Pagination.totalPages s = Spec.totalPages len
  /\ PostsGrid.totalPages s = Spec.totalPages len
  /\ (posts s = [] ->
      Pagination.totalPages s = 1 /\ PostsGrid.totalPages s = 1)
  /\ (len = 18 ->
      Pagination.totalPages s = 3 /\ PostsGrid.totalPages s = 3).
Proof.
  intros len. subst len.
  rewrite Pagination_totalPages_eq, PostsGrid_totalPages_eq.
  split; [|split; [reflexivity|split; [reflexivity|split]]].
  - intros k Hk. apply ceil_div6_iff in Hk.
    unfold Spec.totalPages, Spec.pageSize. rewrite Hk. tauto.
  - intros E. rewrite E. split; reflexivity.
  - intros E. rewrite E. split; reflexivity.
Qed.

Lemma totalPages_max_ceil_witness :
  Pagination.totalPages (loaded (samplePosts 18) 1) = 3
  /\ PostsGrid.totalPages (loaded (samplePosts 18) 1) = 3
  /\ Pagination.totalPages (loaded [] 1) = 1
  /\ Pagination.totalPages (loaded (samplePosts 13) 1) = Z.max 1 3.
Proof.
  pose proof (totalPages_max_ceil (loaded (samplePosts 18) 1))
    as [_ [_ [_ [_ H18]]]].
  pose proof (totalPages_max_ceil (loaded [] 1)) as [_ [_ [_ [H0 _]]]].
  pose proof (totalPages_max_ceil (loaded (samplePosts 13) 1)) as [H13 _].
  split; [apply H18; reflexivity|].
  split; [apply H18; reflexivity|].
  split; [apply H0; reflexivity|].
  apply (H13 3). vm_compute. split; [reflexivity | discriminate].
Defined.

(** C3 (as amended).  With the cursor in range, the visible slice is the
    contiguous sub-sequence [C[(page-1)*6 : page*6]]; it has exactly 6
    items on every page but the last, and on the last page [len mod 6]
    items, or 6 if [len] is a positive multiple of 6, or none if the
    Collection is empty. *)
Theorem visible_slice_subseq (s : State) :
  Spec.cursor_invariant s ->
  let page := PostsGrid.page s in
  let len := JS.length (posts s) in
  PostsGrid.slice s
  = Spec.subseq (posts s) (Z.to_nat ((page - 1) * 6)) (Z.to_nat (page * 6))
  /\ JS.length (PostsGrid.slice s)
     = Spec.slice_length_nonempty_aware len page (PostsGrid.totalPages s)
  /\ (page < PostsGrid.totalPages s -> JS.length (PostsGrid.slice s) = 6)
  /\ (0 < len -> JS.length (PostsGrid.slice s)
                 = Spec.slice_length len page (PostsGrid.totalPages s)).
Proof.
  intros Hinv page len.
  assert (Hpage : page = currentPage s) by (now apply page_in_range).
  pose proof (length_nonneg (posts s)) as Hlen0. fold len in Hlen0.
  assert (Hp : 1 <= page <= Spec.totalPages len)
    by (rewrite Hpage; exact Hinv).
  pose proof (start_in_range len page Hlen0 Hp) as Hstart.
  assert (Hslice : PostsGrid.slice s
                   = Spec.subseq (posts s) (Z.to_nat ((page - 1) * 6))
                       (Z.to_nat ((page - 1) * 6 + 6))).
  { unfold PostsGrid.slice, PostsGrid.start, PostsGrid.perPage.
    fold page. now apply slice_in_range. }
  assert (Hcount : JS.length (PostsGrid.slice s)
                   = Z.min 6 (len - (page - 1) * 6))
    by (rewrite Hslice; now apply subseq_length).
  rewrite PostsGrid_totalPages_eq. fold len.
  unfold Spec.slice_length_nonempty_aware, Spec.slice_length, Spec.pageSize.
  rewrite Hcount.
  unfold Spec.totalPages, Spec.pageSize in *.
  pose proof (ceil_div6_bounds len) as Hc.
  pose proof (Z.div_mod len 6 ltac:(lia)) as Hdm.
  pose proof (Z.mod_pos_bound len 6 ltac:(lia)) as Hmod.
  split; [|split; [|split]].
  - rewrite Hslice. do 2 f_equal. lia.
  - destruct (Z.ltb_spec page (Z.max 1 (Spec.ceil_div len 6))); [lia|].
    destruct (Z.eqb_spec len 0); [lia|].
    destruct (Z.eqb_spec (len mod 6) 0); lia.
  - lia.
  - intros Hpos.
    destruct (Z.ltb_spec page (Z.max 1 (Spec.ceil_div len 6))); [lia|].
    destruct (Z.eqb_spec (len mod 6) 0); lia.
Qed.

Lemma visible_slice_subseq_witness :
  map id (PostsGrid.slice (loaded (samplePosts 17) 3))
  = map IdNum [13; 14; 15; 16; 17]
  /\ JS.length (PostsGrid.slice (loaded (samplePosts 17) 3)) = 5.
Proof.
  assert (Hinv : Spec.cursor_invariant (loaded (samplePosts 17) 3))
    by (vm_compute; split; discriminate).
  destruct (visible_slice_subseq _ Hinv) as [H1 [H2 _]].
  split; [rewrite H1 | rewrite H2]; reflexivity.
Defined.

(** C3, the claim as worded, fails on the empty Collection: its only page
    is the last one and 0 is evenly divisible by 6, so the worded length
    is 6, while the slice is empty. *)
Lemma visible_slice_empty_collection :
  Spec.cursor_invariant (loaded [] 1)
  /\ PostsGrid.page (loaded [] 1) = PostsGrid.totalPages (loaded [] 1)
  /\ PostsGrid.slice (loaded [] 1) = []
  /\ Spec.slice_length (JS.length (posts (loaded [] 1)))
       (PostsGrid.page (loaded [] 1)) (PostsGrid.totalPages (loaded [] 1)) = 6
  /\ JS.length (PostsGrid.slice (loaded [] 1))
     <> Spec.slice_length (JS.length (posts (loaded [] 1)))
          (PostsGrid.page (loaded [] 1)) (PostsGrid.totalPages (loaded [] 1)).
Proof.
  split; [vm_compute; split; discriminate|].
  repeat split; try reflexivity.
  vm_compute. discriminate.
Qed.

(** C8 (as amended).  When [fetchPosts] settles on a mounted provider it
    replaces the Collection wholesale with the supplied sequence (the
    empty one on failure) and leaves the cursor as it was; applied to the
    initial state, whose cursor is 1, it therefore ends with cursor 1. *)
Theorem fetchPosts_replaces_collection (o : FetchOutcome) (s : State) :
  posts (fetchPosts true o s) = suppliedItems o
  /\ posts (fetchPosts true Rejected s) = []
  /\ currentPage (fetchPosts true o s) = currentPage s
  /\ currentPage (fetchPosts true o initialState) = 1.
Proof.
  destruct o; repeat split.
Qed.

(** C8, the claim as worded, fails for a prior cursor other than 1: the
    load does not touch the cursor. *)
Lemma fetchPosts_keeps_cursor :
  currentPage (fetchPosts true Rejected (mkState (samplePosts 13) true 3)) = 3
  /\ currentPage (fetchPosts true Rejected (mkState (samplePosts 13) true 3))
     <> 1.
Proof.
  split; [reflexivity | vm_compute; discriminate].
Qed.

(** C9.  On a Collection with pairwise-distinct ids, [deletePost] keeps
    exactly the items with another id, in their former relative order,
    and their ids stay pairwise distinct; the other actions (selecting a
    page, previous, next) leave the Collection as it is. *)
Theorem deletePost_preserves_order_and_uniqueness (i : PostId) (s : State) :
  Spec.unique_ids (posts s) ->
  let C' := posts (deletePost i s) in
  (forall p, In p C' <-> In p (posts s) /\ id p <> i)
  /\ (forall a b, Spec.before a b C'
                 <-> Spec.before a b (posts s) /\ id a <> i /\ id b <> i)
  /\ Spec.unique_ids C'
  /\ (forall a, isDelete a = false -> posts (step a s) = posts s).
Proof.
  intros Hu C'. subst C'. rewrite deletePost_posts.
  split; [|split; [|split]].
  - intros p. rewrite filter_In, strict_neq_iff. tauto.
  - intros a b. apply before_filter.
  - now apply unique_ids_filter.
  - intros [j|p| |]; simpl; [discriminate| reflexivity ..].
Qed.

Lemma deletePost_preserves_order_and_uniqueness_witness :
  Spec.unique_ids (posts (deletePost (IdNum 2) (loaded (samplePosts 3) 1)))
  /\ map id (posts (deletePost (IdNum 2) (loaded (samplePosts 3) 1)))
     = [IdNum 1; IdNum 3].
Proof.
  split; [|reflexivity].
  apply (deletePost_preserves_order_and_uniqueness (IdNum 2)
           (loaded (samplePosts 3) 1)).
  unfold Spec.unique_ids. simpl.
  repeat (apply NoDup_cons; [simpl; intuition discriminate|]).
  apply NoDup_nil.
Defined.

(** * Further properties of the components *)

(** ** The page numbers *)

Lemma pages_loop_from (n : nat) :
  forall (fuel : nat) (i tp : Z) (acc : list Z),
    i + Z.of_nat n = tp + 1 -> (n < fuel)%nat ->
    pages_loop fuel i tp acc
    = Some (acc ++ map (fun k => Z.of_nat k + i) (seq 0 n)).
Proof.
  induction n as [|n IH]; intros fuel i tp acc Hi Hfuel;
    (destruct fuel as [|fuel]; [lia|]); simpl pages_loop.
  - destruct (Z.leb_spec i tp); [lia|]. simpl. now rewrite app_nil_r.
  - destruct (Z.leb_spec i tp); [|lia].
    rewrite (IH fuel (i + 1) tp (acc ++ [i])) by lia.
    rewrite <- app_assoc. simpl. do 3 f_equal.
    rewrite <- seq_shift, map_map.
    apply map_ext. intros k. lia.
Qed.

Lemma In_pages (s : State) (p : Z) :
  In p (Pagination.pages s) <-> 1 <= p <= Pagination.totalPages s.
Proof.
  unfold Pagination.pages. rewrite in_map_iff. split.
  - intros [k [Hk Hin]]. apply in_seq in Hin. lia.
  - intros Hp. exists (Z.to_nat (p - 1)). split; [lia|].
    apply in_seq. lia.
Qed.

Lemma pages_NoDup (s : State) : NoDup (Pagination.pages s).
Proof.
  unfold Pagination.pages.
  generalize (seq_NoDup (Z.to_nat (Pagination.totalPages s)) 0).
  generalize (seq 0 (Z.to_nat (Pagination.totalPages s))).
  induction l as [|k l IH]; simpl; intros Hnd; [constructor|].
  apply NoDup_cons_iff in Hnd as [Hk Hnd].
  constructor; [|now apply IH].
  rewrite in_map_iff. intros [j [Hj Hin]].
  assert (j = k) by lia. now subst j.
Qed.

Lemma Pagination_totalPages_pos (s : State) : 1 <= Pagination.totalPages s.
Proof. rewrite Pagination_totalPages_eq. apply totalPages_pos. Qed.

Lemma filter_eqb_NoDup (c : Z) (l : list Z) :
  NoDup l -> In c l -> filter (fun p => p =? c) l = [c].
Proof.
  induction l as [|x l IH]; simpl; intros Hnd Hin; [contradiction|].
  apply NoDup_cons_iff in Hnd as [Hx Hnd].
  destruct (Z.eqb_spec x c) as [->|Hne].
  - f_equal.
    clear IH Hin Hnd. induction l as [|y l IHl]; simpl; [reflexivity|].
    destruct (Z.eqb_spec y c) as [->|_].
    + exfalso. apply Hx. now left.
    + apply IHl. intros Hin. apply Hx. now right.
  - destruct Hin as [Hin|Hin]; [contradiction|]. now apply IH.
Qed.

(** X1.  The loop of [Pagination] that fills [pages] ends once it has more
    fuel than [totalPages], and returns the page numbers
    [1, 2, ..., totalPages]: one entry per page, each in range, none
    twice. *)
Theorem pages_loop_result (s : State) (fuel : nat) :
  (Z.to_nat (Pagination.totalPages s) < fuel)%nat ->
  pages_loop fuel 1 (Pagination.totalPages s) [] = Some (Pagination.pages s)
  /\ JS.length (Pagination.pages s) = Pagination.totalPages s
  /\ (forall p, In p (Pagination.pages s)
                <-> 1 <= p <= Pagination.totalPages s)
  /\ NoDup (Pagination.pages s).
Proof.
  intros Hfuel.
  pose proof (Pagination_totalPages_pos s) as Hpos.
  split; [|split; [|split]].
  - rewrite (pages_loop_from (Z.to_nat (Pagination.totalPages s)))
      by (try assumption; lia).
    reflexivity.
  - unfold Pagination.pages, JS.length. rewrite length_map, length_seq. lia.
  - intros p. apply In_pages.
  - apply pages_NoDup.
Qed.

Lemma pages_loop_result_witness :
  pages_loop 4 1 (Pagination.totalPages (loaded (samplePosts 13) 1)) []
  = Some [1; 2; 3].
Proof.
  destruct (pages_loop_result (loaded (samplePosts 13) 1) 4) as [H _].
  - vm_compute. lia.
  - rewrite H. reflexivity.
Defined.

(** X2.  Clicking one of the rendered page buttons puts the cursor in
    range and makes the grid show exactly that page; the Collection is
    untouched. *)
Theorem page_button_selects_page (s : State) (p : Z) :
  In p (Pagination.pages s) ->
  Spec.cursor_invariant (Pagination.goToPage p s)
  /\ PostsGrid.page (Pagination.goToPage p s) = p
  /\ posts (Pagination.goToPage p s) = posts s.
Proof.
  intros Hp. apply In_pages in Hp.
  rewrite Pagination_totalPages_eq in Hp.
  assert (Hinv : Spec.cursor_invariant (Pagination.goToPage p s))
    by exact Hp.
  split; [exact Hinv|]. split; [|reflexivity].
  now rewrite page_in_range.
Qed.

Lemma page_button_selects_page_witness :
  PostsGrid.page (Pagination.goToPage 2 (loaded (samplePosts 13) 1)) = 2.
Proof.
  apply (page_button_selects_page (loaded (samplePosts 13) 1) 2).
  vm_compute. right. left. reflexivity.
Defined.



(** X4.  With the cursor in range, exactly one page button carries the
    active style, and it is the button of the page the grid shows. *)
Theorem one_active_page_button (s : State) :
  Spec.cursor_invariant s ->
  map pb_label (filter pb_active (pageBtns (Render.Pagination s)))
  = [PostsGrid.page s].
Proof.
  intros Hinv. rewrite (page_in_range s Hinv). simpl.
  rewrite filter_map_swap, map_map. simpl. rewrite map_id.
  apply filter_eqb_NoDup; [apply pages_NoDup|].
  apply In_pages. rewrite Pagination_totalPages_eq. exact Hinv.
Qed.

Lemma one_active_page_button_witness :
  map pb_label
    (filter pb_active (pageBtns (Render.Pagination (loaded (samplePosts 13) 2))))
  = [2].
Proof.
  rewrite (one_active_page_button (loaded (samplePosts 13) 2)).
  - reflexivity.
  - vm_compute; split; discriminate.
Defined.

(** X5.  Next then Prev returns to the state one started from when the
    cursor is in range and not on the last page; Prev then Next does so
    when it is in range and not on the first page. *)
Theorem goNext_goPrev_round_trip (s : State) :
  1 <= currentPage s <= Pagination.totalPages s ->
  (currentPage s < Pagination.totalPages s ->
   Pagination.goPrev (Pagination.goNext s) = s)
  /\ (1 < currentPage s ->
      Pagination.goNext (Pagination.goPrev s) = s).
Proof.
  intros Hin.
  unfold Pagination.goPrev, Pagination.goNext, Pagination.totalPages,
    setCurrentPage, JS.Math_max, JS.Math_min in *; simpl.
  split; intros H; apply State_eq; simpl; try reflexivity; lia.
Qed.

Lemma goNext_goPrev_round_trip_witness :
  Pagination.goPrev (Pagination.goNext (loaded (samplePosts 13) 2))
  = loaded (samplePosts 13) 2.
Proof.
  apply (goNext_goPrev_round_trip (loaded (samplePosts 13) 2)).
  - vm_compute; split; discriminate.
  - vm_compute; reflexivity.
Defined.

(** ** The visible slice, for any cursor *)

Lemma slice_segment {A : Type} (arr : list A) (a b : Z) :
  exists pre suf, arr = pre ++ JS.slice arr a b ++ suf.
Proof.
  unfold JS.slice. cbv zeta.
  match goal with
  | |- context [firstn ?c (skipn ?k arr)] =>
      exists (firstn k arr), (skipn c (skipn k arr));
      rewrite (firstn_skipn c (skipn k arr))
  end.
  symmetry. apply firstn_skipn.
Qed.

Lemma slice_window {A : Type} (arr : list A) (lo : Z) :
  JS.length (JS.slice arr lo (lo + 6)) <= 6.
Proof.
  unfold JS.slice, JS.length. rewrite length_firstn.
  destruct (Z.ltb_spec lo 0), (Z.ltb_spec (lo + 6) 0); lia.
Qed.

Lemma unique_ids_segment (pre mid suf : list Post) :
  Spec.unique_ids (pre ++ mid ++ suf) -> Spec.unique_ids mid.
Proof.
  unfold Spec.unique_ids. rewrite !map_app. intros H.
  apply NoDup_app_remove_l in H. now apply NoDup_app_remove_r in H.
Qed.

(** X6.  Whatever the cursor (negative, zero or past the last page), the
    visible slice is a run of consecutive posts of the Collection and has
    at most 6 of them. *)
Theorem slice_is_window (s : State) :
  (exists pre suf, posts s = pre ++ PostsGrid.slice s ++ suf)
  /\ JS.length (PostsGrid.slice s) <= 6.
Proof.
  split.
  - apply slice_segment.
  - apply slice_window.
Qed.

(** X7.  With a cursor [>= 1] (even one past the last page) and a
    non-empty Collection, the grid shows at least one card. *)
Theorem slice_nonempty (s : State) :
  1 <= currentPage s ->
  posts s <> [] ->
  PostsGrid.slice s <> [].
Proof.
  intros Hcp Hne.
  set (s' := Pagination.goToPage (PostsGrid.page s) s).
  assert (Hinv : Spec.cursor_invariant s').
  { unfold Spec.cursor_invariant, s', PostsGrid.page, JS.Math_min. simpl.
    rewrite PostsGrid_totalPages_eq.
    pose proof (totalPages_pos (JS.length (posts s))). lia. }
  assert (Hlen : 0 < JS.length (posts s)).
  { destruct (posts s); [contradiction|]. unfold JS.length. simpl. lia. }
  pose proof (start_in_range (JS.length (posts s)) (currentPage s')
                (length_nonneg _) Hinv) as Hstart.
  assert (Hsl : PostsGrid.slice s
                = Spec.subseq (posts s)
                    (Z.to_nat ((currentPage s' - 1) * 6))
                    (Z.to_nat ((currentPage s' - 1) * 6 + 6)))
    by (now apply slice_in_range).
  assert (Hcount : JS.length (PostsGrid.slice s)
                   = Z.min 6 (JS.length (posts s) - (currentPage s' - 1) * 6))
    by (rewrite Hsl; now apply subseq_length).
  unfold Spec.cursor_invariant, Spec.totalPages, Spec.pageSize in Hinv.
  change (posts s') with (posts s) in Hinv.
  pose proof (ceil_div6_bounds (JS.length (posts s))).
  intros E. rewrite E in Hcount. unfold JS.length at 1 in Hcount.
  change (currentPage s') with (PostsGrid.page s) in *.
  simpl in Hcount. lia.
Qed.

Lemma slice_nonempty_witness :
  PostsGrid.slice (loaded (samplePosts 13) 9) <> [].
Proof.
  apply slice_nonempty.
  - simpl. lia.
  - vm_compute. discriminate.
Defined.

(** ** Pages cover the Collection *)

Lemma chunks_concat {A : Type} (n : nat) :
  forall l : list A,
    (List.length l <= 6 * n)%nat ->
    List.concat (map (fun k => firstn 6 (skipn (6 * k) l)) (seq 0 n)) = l.
Proof.
  induction n as [|n IH]; intros l Hlen.
  - destruct l; [reflexivity | simpl in Hlen; lia].
  - cbn [seq map List.concat]. rewrite <- seq_shift, map_map.
    replace (6 * 0)%nat with 0%nat by lia. rewrite skipn_O.
    rewrite (map_ext _ (fun k => firstn 6 (skipn (6 * k) (skipn 6 l)))).
    + rewrite (IH (skipn 6 l)).
      * apply firstn_skipn.
      * rewrite length_skipn. lia.
    + intros k. rewrite skipn_skipn. do 2 f_equal. lia.
Qed.

(** X8.  Paging loses nothing and repeats nothing: the slices of the
    pages [1 .. totalPages], one after the other, are the Collection. *)
Theorem pages_cover_collection (s : State) :
  List.concat (allPages s) = posts s.
Proof.
  unfold allPages.
  pose proof (Pagination_totalPages_pos s) as Hpos.
  rewrite <- (chunks_concat (Z.to_nat (Pagination.totalPages s)) (posts s)).
  - f_equal. unfold Pagination.pages. rewrite map_map.
    apply map_ext_in. intros k Hk. apply in_seq in Hk.
    set (p := Z.of_nat k + 1).
    assert (Hp : In p (Pagination.pages s)) by (apply In_pages; lia).
    apply In_pages in Hp. rewrite Pagination_totalPages_eq in Hp.
    assert (Hinv : Spec.cursor_invariant (Pagination.goToPage p s))
      by exact Hp.
    unfold PostsGrid.slice, PostsGrid.start, PostsGrid.perPage.
    rewrite (page_in_range _ Hinv).
    change (currentPage (Pagination.goToPage p s)) with p.
    change (posts (Pagination.goToPage p s)) with (posts s).
    rewrite slice_in_range
      by (apply start_in_range; [apply length_nonneg | exact Hp]).
    unfold Spec.subseq. f_equal; [lia|]. f_equal. lia.
  - rewrite Pagination_totalPages_eq in *.
    unfold Spec.totalPages, Spec.pageSize in *.
    pose proof (ceil_div6_bounds (JS.length (posts s))) as Hc.
    unfold JS.length in *. lia.
Qed.



(** ** Deleting a visible card *)

Lemma NoDup_app_disjoint {A : Type} (l1 l2 : list A) (x : A) :
  NoDup (l1 ++ l2) -> In x l1 -> In x l2 -> False.
Proof.
  induction l1 as [|a l1 IH]; simpl; intros Hnd H1 H2; [contradiction|].
  apply NoDup_cons_iff in Hnd as [Ha Hnd].
  destruct H1 as [->|H1].
  - apply Ha, in_or_app. now right.
  - now apply IH.
Qed.

Lemma absent_iff (i : PostId) (C : list Post) :
  Spec.absent i C <-> ~ In i (map id C).
Proof.
  unfold Spec.absent. rewrite in_map_iff. split.
  - intros H [p [Hid Hin]]. now apply (H p).
  - intros H p Hin Hid. apply H. now exists p.
Qed.

Lemma remove_item_length (i : PostId) (C : list Post) :
  In i (map id C) ->
  S (List.length (Spec.remove_item i C)) = List.length C.
Proof.
  induction C as [|p C IH]; simpl; intros Hin; [contradiction|].
  destruct (strict_eq (id p) i) eqn:E; [reflexivity|].
  destruct Hin as [Hin|Hin].
  - apply strict_eq_iff in Hin. congruence.
  - simpl. f_equal. now apply IH.
Qed.

Lemma filter_present_length (i : PostId) (C : list Post) :
  Spec.unique_ids C -> In i (map id C) ->
  JS.length (filter (fun p => strict_neq (id p) i) C) = JS.length C - 1.
Proof.
  intros Hu Hin. rewrite filter_remove_item by assumption.
  pose proof (remove_item_length i C Hin). unfold JS.length. lia.
Qed.

(** Removing an id that sits in the window [st .. st+6) of a list with
    unique ids, when something follows the window: the window keeps its
    other items and takes the first item that followed. *)
Lemma window_after_removal (i : PostId) (l : list Post) (st : nat) :
  Spec.unique_ids l ->
  In i (map id (firstn 6 (skipn st l))) ->
  (st + 6 < List.length l)%nat ->
  firstn 6 (skipn st (filter (fun p => strict_neq (id p) i) l))
  = Spec.remove_item i (firstn 6 (skipn st l))
    ++ firstn 1 (skipn (st + 6) l).
Proof.
  intros Hu Hin Hlen.
  set (A := firstn st l). set (W := firstn 6 (skipn st l)).
  set (B := skipn 6 (skipn st l)).
  assert (El : l = A ++ W ++ B)
    by (unfold A, W, B; now rewrite !firstn_skipn).
  assert (HA : List.length A = st)
    by (unfold A; rewrite length_firstn; lia).
  assert (HW : List.length W = 6%nat)
    by (unfold W; rewrite length_firstn, length_skipn; lia).
  assert (EB : skipn (st + 6) l = B)
    by (unfold B; rewrite skipn_skipn; f_equal; lia).
  assert (HuW : Spec.unique_ids W)
    by (rewrite El in Hu; now apply unique_ids_segment in Hu).
  assert (Hids : NoDup (map id A ++ map id W ++ map id B))
    by (unfold Spec.unique_ids in Hu; rewrite El, !map_app in Hu; exact Hu).
  assert (HabsA : Spec.absent i A).
  { apply absent_iff. intros HiA.
    apply (NoDup_app_disjoint _ _ i Hids HiA), in_or_app. now left. }
  assert (HabsB : Spec.absent i B).
  { apply absent_iff. intros HiB.
    apply NoDup_app_remove_l in Hids.
    exact (NoDup_app_disjoint _ _ i Hids Hin HiB). }
  rewrite EB. rewrite El at 1. rewrite !filter_app.
  rewrite (filter_absent i A HabsA), (filter_absent i B HabsB).
  rewrite (filter_remove_item i W HuW).
  pose proof (remove_item_length i W Hin) as HW'.
  rewrite skipn_app, skipn_all2 by lia.
  replace (st - List.length A)%nat with 0%nat by lia.
  rewrite skipn_O. simpl app.
  rewrite firstn_app, firstn_all2 by lia.
  f_equal.
  replace (6 - List.length (Spec.remove_item i W))%nat with 1%nat by lia.
  reflexivity.
Qed.

(** X10.  The card's cross deletes its own post and no other: on a
    Collection with pairwise-distinct ids, clicking the cross of a
    visible card leaves exactly the posts with another key, one fewer
    than before. *)
Theorem card_cross_deletes_its_post (s : State) (k : PostId) (c : CardView) :
  Spec.unique_ids (posts s) ->
  In (k, c) (cards (Render.PostsGrid s)) ->
  let s' := step (onClick (card_cross c)) s in
  (forall q, In q (posts s') <-> In q (posts s) /\ id q <> k)
  /\ ~ In k (map id (posts s'))
  /\ JS.length (posts s') = JS.length (posts s) - 1.
Proof.
  intros Hu Hin s'. simpl in Hin. apply in_map_iff in Hin as [p [E Hp]].
  injection E as Ek Ec. subst k c. subst s'. simpl step.
  rewrite deletePost_posts.
  assert (Hpin : In (id p) (map id (posts s))).
  { apply in_map.
    destruct (slice_segment (posts s) (PostsGrid.start s)
                (PostsGrid.start s + PostsGrid.perPage)) as [pre [suf E]].
    rewrite E. apply in_or_app. right. apply in_or_app. now left. }
  split; [|split].
  - intros q. rewrite filter_In, strict_neq_iff. tauto.
  - apply absent_iff, filter_is_absent.
  - now apply filter_present_length.
Qed.

Lemma card_cross_deletes_its_post_witness :
  JS.length
    (posts (step (onClick (card_cross (Render.Card (samplePost 2) DeletePost)))
              (loaded (samplePosts 3) 1)))
  = 2.
Proof.
  apply (card_cross_deletes_its_post (loaded (samplePosts 3) 1) (IdNum 2)
           (Render.Card (samplePost 2) DeletePost)).
  - unfold Spec.unique_ids. simpl.
    repeat (apply NoDup_cons; [simpl; intuition discriminate|]).
    apply NoDup_nil.
  - vm_compute. right. left. reflexivity.
Defined.

(** X11.  The view stays at 6 cards by shifting from the following
    pages: with unique ids and the cursor in range, deleting a visible
    card while posts remain after the current page keeps the cursor, and
    the new slice is the old one without that card followed by the first
    post of the next page. *)
Theorem delete_shifts_next_post_in (s : State) (p : Post) :
  Spec.unique_ids (posts s) ->
  Spec.cursor_invariant s ->
  In p (PostsGrid.slice s) ->
  currentPage s * 6 < JS.length (posts s) ->
  let s' := deletePost (id p) s in
  currentPage s' = currentPage s
  /\ PostsGrid.slice s'
     = Spec.remove_item (id p) (PostsGrid.slice s)
       ++ firstn 1 (skipn (Z.to_nat (currentPage s * 6)) (posts s))
  /\ JS.length (PostsGrid.slice s') = 6.
Proof.
  intros Hu Hinv Hp Hmore s'.
  set (cp := currentPage s) in *.
  set (st := Z.to_nat ((cp - 1) * 6)).
  pose proof (length_nonneg (posts s)) as Hlen0.
  assert (Hcp : 1 <= cp) by (apply Hinv).
  assert (Hslice : PostsGrid.slice s = firstn 6 (skipn st (posts s))).
  { unfold PostsGrid.slice, PostsGrid.start, PostsGrid.perPage.
    rewrite (page_in_range s Hinv). fold cp.
    rewrite slice_in_range by lia. unfold Spec.subseq. fold st.
    f_equal. lia. }
  assert (Hin : In (id p) (map id (firstn 6 (skipn st (posts s)))))
    by (rewrite <- Hslice; now apply in_map).
  assert (Hst : (st + 6 < List.length (posts s))%nat)
    by (unfold JS.length in Hmore; lia).
  assert (Hpin : In (id p) (map id (posts s))).
  { rewrite <- (firstn_skipn st (posts s)), map_app. apply in_or_app. right.
    rewrite <- (firstn_skipn 6 (skipn st (posts s))), map_app.
    apply in_or_app. now left. }
  assert (Hlen' : JS.length (posts s') = JS.length (posts s) - 1)
    by (unfold s'; rewrite deletePost_posts; now apply filter_present_length).
  assert (Hcur : currentPage s' = cp).
  { unfold s'. rewrite deletePost_currentPage. fold s'. fold cp.
    rewrite Hlen'. unfold Spec.totalPages, Spec.pageSize.
    pose proof (ceil_div6_bounds (JS.length (posts s) - 1)). lia. }
  assert (Hinv' : Spec.cursor_invariant s')
    by (now apply deletePost_keeps_invariant).
  assert (Hslice' : PostsGrid.slice s' = firstn 6 (skipn st (posts s'))).
  { unfold PostsGrid.slice, PostsGrid.start, PostsGrid.perPage.
    rewrite (page_in_range s' Hinv'), Hcur.
    rewrite slice_in_range by lia. unfold Spec.subseq. fold st.
    f_equal. lia. }
  assert (Hshift : PostsGrid.slice s'
                   = Spec.remove_item (id p) (PostsGrid.slice s)
                     ++ firstn 1 (skipn (Z.to_nat (cp * 6)) (posts s))).
  { rewrite Hslice', Hslice. unfold s'. rewrite deletePost_posts.
    rewrite (window_after_removal (id p) (posts s) st Hu Hin Hst).
    do 3 f_equal. lia. }
  split; [exact Hcur|]. split; [exact Hshift|].
  rewrite Hslice'. unfold JS.length in *.
  rewrite length_firstn, length_skipn. lia.
Qed.

Lemma delete_shifts_next_post_in_witness :
  map id (PostsGrid.slice (deletePost (IdNum 3) (loaded (samplePosts 8) 1)))
  = map IdNum [1; 2; 4; 5; 6; 7].
Proof.
  destruct (delete_shifts_next_post_in (loaded (samplePosts 8) 1)
              (samplePost 3)) as [_ [H _]].
  - unfold Spec.unique_ids. simpl.
    repeat (apply NoDup_cons; [simpl; intuition discriminate|]).
    apply NoDup_nil.
  - vm_compute; split; discriminate.
  - vm_compute. right. right. left. reflexivity.
  - vm_compute. reflexivity.
  - simpl id in H. rewrite H. reflexivity.
Defined.

Lemma filter_comm {A : Type} (f g : A -> bool) (l : list A) :
  filter f (filter g l) = filter g (filter f l).
Proof.
  induction l as [|x l IH]; simpl; [reflexivity|].
  destruct (f x) eqn:Ef, (g x) eqn:Eg; simpl;
    rewrite ?Ef, ?Eg, IH; reflexivity.
Qed.

Lemma filter_shorter {A : Type} (f : A -> bool) (l : list A) :
  JS.length (filter f l) <= JS.length l.
Proof. unfold JS.length. pose proof (filter_length_le f l). lia. Qed.

(** X12.  Deleting a post that is present (ids pairwise distinct, cursor
    in range) shortens the Collection by one, and the cursor steps back
    by one exactly when that post was alone on the last page and the
    cursor stood on that page, which is not page 1; otherwise it stays. *)
Theorem delete_present_cursor (i : PostId) (s : State) :
  Spec.unique_ids (posts s) ->
  Spec.cursor_invariant s ->
  In i (map id (posts s)) ->
  let s' := deletePost i s in
  JS.length (posts s') = JS.length (posts s) - 1
  /\ currentPage s'
     = if (1 <? currentPage s)
          && (JS.length (posts s) =? 6 * (currentPage s - 1) + 1)
       then currentPage s - 1
       else currentPage s.
Proof.
  intros Hu Hinv Hin s'.
  assert (Hlen' : JS.length (posts s') = JS.length (posts s) - 1)
    by (unfold s'; rewrite deletePost_posts; now apply filter_present_length).
  split; [exact Hlen'|].
  unfold s'. rewrite deletePost_currentPage. fold s'. rewrite Hlen'.
  unfold Spec.cursor_invariant, Spec.totalPages, Spec.pageSize in *.
  pose proof (ceil_div6_bounds (JS.length (posts s))).
  pose proof (ceil_div6_bounds (JS.length (posts s) - 1)).
  pose proof (length_nonneg (posts s')).
  destruct (Z.ltb_spec 1 (currentPage s));
    destruct (Z.eqb_spec (JS.length (posts s)) (6 * (currentPage s - 1) + 1));
    simpl; lia.
Qed.

Lemma delete_present_cursor_witness :
  currentPage (deletePost (IdNum 5) (loaded (samplePosts 7) 2)) = 1.
Proof.
  destruct (delete_present_cursor (IdNum 5) (loaded (samplePosts 7) 2))
    as [_ H].
  - unfold Spec.unique_ids. simpl.
    repeat (apply NoDup_cons; [simpl; intuition discriminate|]).
    apply NoDup_nil.
  - vm_compute; split; discriminate.
  - vm_compute. do 4 right. left. reflexivity.
  - rewrite H. reflexivity.
Defined.

(** X13.  Deletions commute: deleting two ids in either order gives the
    same Collection and the same cursor, from any state. *)
Theorem deletePost_commute (i j : PostId) (s : State) :
  deletePost i (deletePost j s) = deletePost j (deletePost i s).
Proof.
  assert (Hposts : posts (deletePost i (deletePost j s))
                   = posts (deletePost j (deletePost i s)))
    by (rewrite !deletePost_posts; apply filter_comm).
  apply State_eq; [exact Hposts | reflexivity |].
  rewrite (deletePost_currentPage i (deletePost j s)).
  rewrite (deletePost_currentPage j (deletePost i s)).
  rewrite (deletePost_currentPage j s), (deletePost_currentPage i s).
  rewrite Hposts.
  set (c := Spec.totalPages (JS.length (posts (deletePost j (deletePost i s))))).
  assert (Hi : c <= Spec.totalPages (JS.length (posts (deletePost i s)))).
  { apply totalPages_mono. rewrite (deletePost_posts j). apply filter_shorter. }
  assert (Hj : c <= Spec.totalPages (JS.length (posts (deletePost j s)))).
  { unfold c. rewrite <- Hposts. apply totalPages_mono.
    rewrite (deletePost_posts i). apply filter_shorter. }
  lia.
Qed.

(** X14.  Deleting never adds a post or a page: the Collection after
    [deletePost] is no longer than before, its page count no larger, and
    every post it still holds was there before. *)
Theorem deletePost_shrinks (i : PostId) (s : State) :
  JS.length (posts (deletePost i s)) <= JS.length (posts s)
  /\ PostsGrid.totalPages (deletePost i s) <= PostsGrid.totalPages s
  /\ (forall p, In p (posts (deletePost i s)) -> In p (posts s)).
Proof.
  rewrite !PostsGrid_totalPages_eq, deletePost_posts.
  split; [apply filter_shorter|].
  split; [apply totalPages_mono, filter_shorter|].
  intros p Hp. now apply filter_In in Hp.
Qed.

Lemma deletePost_shrinks_witness :
  In (samplePost 1) (posts (loaded (samplePosts 3) 1)).
Proof.
  apply (deletePost_shrinks (IdNum 2) (loaded (samplePosts 3) 1)).
  vm_compute. left. reflexivity.
Defined.

(** ** The initial load *)

(** X15.  Once the fetch settles on a mounted provider that is still in
    its initial state, loading is off, the cursor is in range, and the
    store holds one post per fetched item, in the same order, with the
    same id, title and body (none when the fetch failed); distinct
    fetched ids give a Collection with distinct ids. *)
Theorem load_establishes_invariant (o : FetchOutcome) :
  let s := fetchPosts true o initialState in
  loading s = false
  /\ Spec.cursor_invariant s
  /\ (o = Rejected -> posts s = [])
  /\ (forall data, o = Fetched data ->
        map id (posts s) = map raw_id data
        /\ map title (posts s) = map raw_title data
        /\ map body (posts s) = map raw_body data
        /\ (NoDup (map raw_id data) -> Spec.unique_ids (posts s))).
Proof.
  intros s.
  assert (Hids : forall data, map id (map withImage data) = map raw_id data)
    by (intros data; rewrite map_map; reflexivity).
  split; [now destruct o|]. split; [|split].
  - unfold Spec.cursor_invariant.
    assert (Hcp : currentPage s = 1) by (now destruct o). rewrite Hcp.
    pose proof (totalPages_pos (JS.length (posts s))). lia.
  - intros ->. reflexivity.
  - intros data ->. simpl. rewrite !map_map. simpl.
    repeat split. unfold Spec.unique_ids. simpl. now rewrite Hids.
Qed.

Lemma load_establishes_invariant_witness :
  map id (posts (fetchPosts true
                   (Fetched [mkRawPost (IdNum 1) "a" "b";
                             mkRawPost (IdNum 2) "c" "d"])
                   initialState))
  = [IdNum 1; IdNum 2].
Proof.
  pose proof (load_establishes_invariant
                (Fetched [mkRawPost (IdNum 1) "a" "b";
                          mkRawPost (IdNum 2) "c" "d"]))
    as [_ [_ [_ H]]].
  destruct (H _ eq_refl) as [Hid _].
  rewrite Hid. reflexivity.
Defined.

(** ** Image addresses *)

Section Strings.

Local Open Scope string_scope.





End Strings.









(** ** What the user can reach by clicking *)

(** The clicks on offer: a cross of a visible card, an enabled Prev or
    Next, or one of the numbered page buttons; none while loading. *)
Lemma clickable_cases (s : State) (a : Action) :
  In a (clickable (Render.MainShell s)) ->
  loading s = false
  /\ ((exists p, In p (PostsGrid.slice s) /\ a = DeletePost (id p))
      \/ (a = Prev /\ currentPage s <> 1)
      \/ (exists p, In p (Pagination.pages s) /\ a = SelectPage p)
      \/ (a = Next /\ currentPage s <> Pagination.totalPages s)).
Proof.
  unfold clickable, Render.MainShell. simpl content.
  destruct (loading s); [contradiction|].
  intros Hin. split; [reflexivity|].
  apply in_map_iff in Hin as [b [Hb Hin]].
  apply filter_In in Hin as [Hin Hen]. apply negb_true_iff in Hen.
  unfold buttons in Hin. simpl in Hin.
  apply in_app_or in Hin as [Hin|[Hin|Hin]].
  - left. rewrite map_map in Hin. simpl in Hin.
    apply in_map_iff in Hin as [p [Hp Hin]].
    exists p. split; [exact Hin|]. subst b a. reflexivity.
  - right; left. subst b. simpl in *. split; [now subst a|].
    now apply Z.eqb_neq.
  - apply in_app_or in Hin as [Hin|[Hin|[]]].
    + right; right; left. rewrite map_map in Hin. simpl in Hin.
      apply in_map_iff in Hin as [p [Hp Hin]].
      exists p. split; [exact Hin|]. subst b a. reflexivity.
    + right; right; right. subst b. simpl in *. split; [now subst a|].
      now apply Z.eqb_neq.
Qed.

Lemma click_keeps_invariant (s : State) (a : Action) :
  Spec.cursor_invariant s ->
  In a (clickable (Render.MainShell s)) ->
  Spec.cursor_invariant (step a s)
  /\ loading (step a s) = loading s
  /\ (forall p, In p (posts (step a s)) -> In p (posts s))
  /\ (Spec.unique_ids (posts s) -> Spec.unique_ids (posts (step a s))).
Proof.
  intros Hinv Hin. apply clickable_cases in Hin as [_ Hcases].
  destruct Hcases as [[p [_ ->]]|[[-> _]|[[p [Hp ->]]|[-> _]]]]; simpl step.
  - split; [now apply deletePost_keeps_invariant|].
    split; [reflexivity|]. rewrite deletePost_posts. split.
    + intros q Hq. now apply filter_In in Hq.
    + apply unique_ids_filter.
  - split; [|now repeat split].
    unfold Spec.cursor_invariant, Pagination.goPrev, JS.Math_max in *.
    simpl. lia.
  - split; [|now repeat split].
    apply In_pages in Hp. rewrite Pagination_totalPages_eq in Hp. exact Hp.
  - split; [|now repeat split].
    unfold Spec.cursor_invariant, Pagination.goNext, JS.Math_min in *.
    simpl. rewrite Pagination_totalPages_eq.
    pose proof (totalPages_pos (JS.length (posts s))). lia.
Qed.

Lemma ui_reachable_keeps (s0 s : State) :
  Spec.cursor_invariant s0 ->
  ui_reachable s0 s ->
  Spec.cursor_invariant s
  /\ loading s = loading s0
  /\ (forall p, In p (posts s) -> In p (posts s0))
  /\ (Spec.unique_ids (posts s0) -> Spec.unique_ids (posts s)).
Proof.
  intros Hinv0 Hreach.
  induction Hreach as [|s a Hreach IH Hin].
  - split; [exact Hinv0|]. split; [reflexivity|]. split; auto.
  - destruct IH as [Hinv [Hload [Hsub Hu]]].
    destruct (click_keeps_invariant s a Hinv Hin) as [Hinv' [Hl' [Hs' Hu']]].
    split; [exact Hinv'|]. split; [congruence|]. split.
    + intros p Hp. now apply Hsub, Hs'.
    + intros H0. now apply Hu', Hu.
Qed.

(** X18.  No click leaves the cursor out of range: from a state whose
    cursor is in range, every state reached by clicking what the page
    offers (card crosses, enabled Prev and Next, page buttons) has its
    cursor in range, so the grid's own clamp changes nothing; it holds
    only posts of the starting Collection, and keeps ids distinct if they
    were. *)
Theorem ui_reachable_invariant (s0 s : State) :
  Spec.cursor_invariant s0 ->
  ui_reachable s0 s ->
  Spec.cursor_invariant s
  /\ PostsGrid.page s = currentPage s
  /\ (forall p, In p (posts s) -> In p (posts s0))
  /\ (Spec.unique_ids (posts s0) -> Spec.unique_ids (posts s)).
Proof.
  intros Hinv0 Hreach.
  destruct (ui_reachable_keeps s0 s Hinv0 Hreach) as [Hinv [_ [Hsub Hu]]].
  split; [exact Hinv|]. split; [now apply page_in_range|].
  split; assumption.
Qed.

Lemma ui_reachable_invariant_witness :
  Spec.cursor_invariant (step Next (loaded (samplePosts 13) 2)).
Proof.
  apply (ui_reachable_invariant (loaded (samplePosts 13) 2)).
  - vm_compute; split; discriminate.
  - apply ui_click; [apply ui_start|].
    vm_compute. do 10 right. left. reflexivity.
Defined.

(** X19.  The whole session: after the fetch settles on the mounted,
    still initial provider, whatever the user then clicks, the cursor is
    within [1 .. totalPages], loading stays off, and every post in the
    store is one of the supplied items. *)
Theorem session_invariant (o : FetchOutcome) (s : State) :
  ui_reachable (fetchPosts true o initialState) s ->
  1 <= currentPage s <= PostsGrid.totalPages s
  /\ loading s = false
  /\ (forall p, In p (posts s) -> In p (suppliedItems o)).
Proof.
  intros Hreach.
  assert (Hinv0 : Spec.cursor_invariant (fetchPosts true o initialState)).
  { unfold Spec.cursor_invariant.
    assert (E : currentPage (fetchPosts true o initialState) = 1)
      by (now destruct o).
    rewrite E.
    pose proof (totalPages_pos
                  (JS.length (posts (fetchPosts true o initialState)))).
    lia. }
  destruct (ui_reachable_keeps _ s Hinv0 Hreach) as [Hinv [Hload [Hsub _]]].
  split; [rewrite PostsGrid_totalPages_eq; exact Hinv|].
  split; [rewrite Hload; now destruct o|].
  intros p Hp. apply Hsub in Hp. now destruct o.
Qed.

Lemma session_invariant_witness :
  loading (step (SelectPage 1) (fetchPosts true Rejected initialState)) = false.
Proof.
  apply (session_invariant Rejected).
  apply ui_click; [apply ui_start|].
  vm_compute. left. reflexivity.
Defined.

(** X20.  While the loading message is shown nothing can be clicked: the
    only state reachable from a loading state is that state itself. *)
Theorem loading_offers_no_click (s0 s : State) :
  loading s0 = true ->
  ui_reachable s0 s ->
  s = s0 /\ clickable (Render.MainShell s) = [].
Proof.
  intros Hload Hreach.
  assert (Hnone : clickable (Render.MainShell s0) = [])
    by (unfold clickable, Render.MainShell; simpl; now rewrite Hload).
  induction Hreach as [|s a Hreach IH Hin].
  - now split.
  - destruct IH as [-> _]. rewrite Hnone in Hin. contradiction.
Qed.

Lemma loading_offers_no_click_witness :
  clickable (Render.MainShell initialState) = [].
Proof.
  apply (loading_offers_no_click initialState initialState).
  - reflexivity.
  - apply ui_start.
Defined.
